(** * blink.cpp: the Raspberry Pi Pico LED blinker

    The program is embedded as an interaction tree over the four SDK calls
    it makes.  A small machine (the SIO registers, the pin routing and a
    millisecond clock) gives the calls their meaning, and a fuelled
    executor runs the tree on that machine and records the timestamped
    calls. *)

From Stdlib Require Import ZArith List Bool Lia.
From ITree Require Import ITree.
From ITree Require ITreeFacts.
From Paco Require paco.
Import ListNotations ITreeNotations.
Local Open Scope Z_scope.
Local Open Scope itree_scope.

(** ** The SDK interface used by the program *)

(** Modelled from the spec: [<pico/stdlib.h>] is not among the sources; the
    direction argument of [gpio_set_dir] is one of the SDK's two
    directions, the spec's "output" being [GPIO_OUT]. *)
Inductive gpio_dir : Type := GPIO_IN | GPIO_OUT.

(** One constructor per SDK function called from [main]. *)
Inductive call : Type :=
| CInit (gpio : Z)
| CSetDir (gpio : Z) (dir : gpio_dir)
| CPut (gpio : Z) (value : bool)
| CSleep (ms : Z).

(** Every SDK call returns [void]: the program receives nothing from its
    environment. *)
Variant sdkE : Type -> Type :=
| Call (c : call) : sdkE unit.

Definition gpio_init (gpio : Z) : itree sdkE unit :=
  ITree.trigger (Call (CInit gpio)).
Definition gpio_set_dir (gpio : Z) (dir : gpio_dir) : itree sdkE unit :=
  ITree.trigger (Call (CSetDir gpio dir)).
Definition gpio_put (gpio : Z) (value : bool) : itree sdkE unit :=
  ITree.trigger (Call (CPut gpio value)).
Definition sleep_ms (ms : Z) : itree sdkE unit :=
  ITree.trigger (Call (CSleep ms)).

(** C++ converts the [int] arguments [1] and [0] of [gpio_put] to its
    [bool] parameter. *)
Definition bool_of_int (z : Z) : bool := negb (z =? 0).

(** [while (cond) body]: the condition is evaluated before each iteration. *)
Definition while (cond : bool) (body : itree sdkE unit) : itree sdkE unit :=
  ITree.iter
    (fun _ : unit => if cond then body ;; Ret (inl tt) else Ret (inr tt)) tt.

(** ** The program *)

Definition LED_PIN : Z := 25.

Definition main : itree sdkE Z :=
  gpio_init LED_PIN ;;
  gpio_set_dir LED_PIN GPIO_OUT ;;
  while true
    (gpio_put LED_PIN (bool_of_int 1) ;;
     sleep_ms 500 ;;
     gpio_put LED_PIN (bool_of_int 0) ;;
     sleep_ms 500) ;;
  Ret 0.

(** The body of the loop of [main]. *)
Definition loop_body : itree sdkE unit :=
  gpio_put LED_PIN (bool_of_int 1) ;;
  sleep_ms 500 ;;
  gpio_put LED_PIN (bool_of_int 0) ;;
  sleep_ms 500.

(** Lines 7 and 8 of [main] on their own: the initialization sequence. *)
Definition initialize (gpio : Z) : itree sdkE unit :=
  gpio_init gpio ;;
  gpio_set_dir gpio GPIO_OUT.

(** ** The machine *)

(** Modelled from the spec: the SDK and the hardware under it are not among
    the sources.  [sio_out] and [sio_oe] are the 32-bit output-level and
    output-enable registers, bit [g] of [io_sio] says that pin [g] is routed
    to software control, and [now] is the time in milliseconds. *)
Record machine : Type := Machine {
  sio_out : Z;
  sio_oe : Z;
  io_sio : Z;
  now : Z
}.

(** [1u << gpio] in 32 bits. *)
Definition mask (gpio : Z) : Z := Z.shiftl 1 gpio mod 2 ^ 32.

Definition set_dir (gpio : Z) (dir : gpio_dir) (m : machine) : machine :=
  match dir with
  | GPIO_OUT => Machine (sio_out m) (Z.lor (sio_oe m) (mask gpio)) (io_sio m) (now m)
  | GPIO_IN => Machine (sio_out m) (Z.ldiff (sio_oe m) (mask gpio)) (io_sio m) (now m)
  end.

Definition put (gpio : Z) (value : bool) (m : machine) : machine :=
  if value
  then Machine (Z.lor (sio_out m) (mask gpio)) (sio_oe m) (io_sio m) (now m)
  else Machine (Z.ldiff (sio_out m) (mask gpio)) (sio_oe m) (io_sio m) (now m).

Definition set_function_sio (gpio : Z) (m : machine) : machine :=
  Machine (sio_out m) (sio_oe m) (Z.lor (io_sio m) (mask gpio)) (now m).

(** Modelled from the spec: what each SDK call does to the machine, the
    SDK not being among the sources.  As the SDK documents it, [gpio_init]
    makes the pin an input, clears its output level and routes it to
    software control, so that the pin is OFF before the first write;
    [gpio_set_dir] and [gpio_put] set or clear the pin's bit of their
    register; [sleep_ms] blocks for the time asked.  The clock is a virtual
    one: a sleep advances it by exactly its argument and the other calls
    take no time. *)
Definition exec (c : call) (m : machine) : machine :=
  match c with
  | CInit g => set_function_sio g (put g false (set_dir g GPIO_IN m))
  | CSetDir g d => set_dir g d m
  | CPut g v => put g v m
  | CSleep ms => Machine (sio_out m) (sio_oe m) (io_sio m) (now m + ms)
  end.

(** The level the program drives on pin [g]: [Some true] is HIGH,
    [Some false] is LOW, [None] when the pin is not an output of the
    program. *)
Definition line (m : machine) (g : Z) : option bool :=
  if Z.testbit (io_sio m) g && Z.testbit (sio_oe m) g
  then Some (Z.testbit (sio_out m) g)
  else None.

(** The machine at power-on: any register contents, time zero. *)
Definition boot (out oe sio : Z) : machine := Machine out oe sio 0.

(** ** Running a program *)

(** What a run has produced so far: the calls made, each with the time it
    was made at, the machine, and the result once the program returned. *)
Record outcome (R : Type) : Type := Outcome {
  trace : list (Z * call);
  final : machine;
  result : option R
}.
Arguments Outcome {R}.
Arguments trace {R}.
Arguments final {R}.
Arguments result {R}.

Definition logged {R : Type} (e : Z * call) (o : outcome R) : outcome R :=
  Outcome (e :: trace o) (final o) (result o).

(** One unit of fuel per SDK call and per jump back to the loop head. *)
Fixpoint run {R : Type} (fuel : nat) (t : itree sdkE R) (m : machine)
  : outcome R :=
  match fuel with
  | O => Outcome [] m None
  | S fuel' =>
      match observe t with
      | RetF r => Outcome [] m (Some r)
      | TauF t' => run fuel' t' m
      | VisF e k =>
          match e in sdkE T return (T -> itree sdkE R) -> outcome R with
          | Call c => fun k' => logged (now m, c) (run fuel' (k' tt) (exec c m))
          end k
      end
  end.

Definition calls {R : Type} (o : outcome R) : list call := map snd (trace o).

(** ** Reading the trace *)

(** The machine after the calls of [tr] made up to time [t]. *)
Definition replay (t : Z) (tr : list (Z * call)) (m : machine) : machine :=
  fold_left (fun m' e => if fst e <=? t then exec (snd e) m' else m') tr m.

(** The level of pin [g] sampled at time [t]. *)
Definition sample (g : Z) (t : Z) (tr : list (Z * call)) (m : machine)
  : option bool :=
  line (replay t tr m) g.

(** The transitions of pin [g]: the time of each change of a driven level
    to the other driven level, with the new level. *)
Fixpoint edges (g : Z) (m : machine) (tr : list (Z * call))
  : list (Z * bool) :=
  match tr with
  | [] => []
  | (ts, c) :: tr' =>
      let m' := exec c m in
      match line m g, line m' g with
      | Some a, Some b =>
          if Bool.eqb a b then edges g m' tr' else (ts, b) :: edges g m' tr'
      | _, _ => edges g m' tr'
      end
  end.

(** ** The shape of a run *)

Definition init_calls : list call :=
  [CInit 25; CSetDir 25 GPIO_OUT].

Definition cycle : list call :=
  [CPut 25 true; CSleep 500; CPut 25 false; CSleep 500].

Definition cycles (k : nat) : list call := concat (repeat cycle k).

Definition execs (cs : list call) (m : machine) : machine :=
  fold_left (fun m' c => exec c m') cs m.

(** The trace left by making the calls [cs] in order from machine [m]. *)
Fixpoint stamp (m : machine) (cs : list call) : list (Z * call) :=
  match cs with
  | [] => []
  | c :: cs' => (now m, c) :: stamp (exec c m) cs'
  end.

(** The outcome of a program that has made the calls [cs] and is still
    running. *)
Definition ran {R : Type} (m : machine) (cs : list call) : outcome R :=
  Outcome (stamp m cs) (execs cs m) None.

(** The rest of [main] once the pin is initialized. *)
Definition blink : itree sdkE Z := while true loop_body ;; Ret 0.

(** The transitions of a pin that goes HIGH at [t0] and flips every 500 ms,
    over [k] periods. *)
Definition wave (t0 : Z) (k : nat) : list (Z * bool) :=
  map (fun i => (t0 + 500 * Z.of_nat i, Nat.even i)) (seq 0 (2 * k)).

Definition is_put (c : call) : bool :=
  match c with CPut _ _ => true | _ => false end.

Definition sets_direction (c : call) : bool :=
  match c with CInit _ | CSetDir _ _ => true | _ => false end.

Definition pin_of (c : call) : option Z :=
  match c with
  | CInit g | CSetDir g _ | CPut g _ => Some g
  | CSleep _ => None
  end.

(** The call names no pin other than the LED's. *)
Definition on_led (c : call) : bool :=
  match pin_of c with Some g => g =? 25 | None => true end.

(** Two machines that show the same time and the same three bits for the
    LED pin. *)
Definition agree (m1 m2 : machine) : Prop :=
  now m1 = now m2 /\
  Z.testbit (sio_out m1) 25 = Z.testbit (sio_out m2) 25 /\
  Z.testbit (sio_oe m1) 25 = Z.testbit (sio_oe m2) 25 /\
  Z.testbit (io_sio m1) 25 = Z.testbit (io_sio m2) 25.

(** The SDK's [gpio_get_dir]. *)
Definition direction (m : machine) (g : Z) : gpio_dir :=
  if Z.testbit (sio_oe m) g then GPIO_OUT else GPIO_IN.

(** Every [gpio_put] among the calls [cs], made in order from machine [m],
    finds its pin driven by the program at that moment. *)
Fixpoint writes_driven (m : machine) (cs : list call) : bool :=
  match cs with
  | [] => true
  | c :: cs' =>
      match c with
      | CPut g _ => match line m g with Some _ => true | None => false end
      | _ => true
      end && writes_driven (exec c m) cs'
  end.

(** * Proofs *)

(** ** The executor on [main] *)

(** [run] looks at a tree only through [observe]. *)
Lemma run_observe {R : Type} (n : nat) (t u : itree sdkE R) (m : machine) :
  observe t = observe u -> run n t m = run n u m.
Proof.
  intros H. destruct n as [|n]; [reflexivity|]. simpl. rewrite H. reflexivity.
Qed.

Lemma run_main_init (n : nat) (m : machine) :
  run (S (S n)) main m =
  logged (now m, CInit 25)
    (logged (now m, CSetDir 25 GPIO_OUT) (run n blink (execs init_calls m))).
Proof.
  change (run (S (S n)) main m) with
    (logged (now m, CInit 25)
       (logged (now m, CSetDir 25 GPIO_OUT)
          (run n (Ret tt ;; blink) (execs init_calls m)))).
  do 2 f_equal. apply run_observe. reflexivity.
Qed.

Lemma run_blink_cycle (n : nat) (m : machine) :
  run (S (S (S (S (S n))))) blink m =
  logged (now m, CPut 25 true)
    (logged (now m, CSleep 500)
      (logged (now m + 500, CPut 25 false)
        (logged (now m + 500, CSleep 500) (run n blink (execs cycle m))))).
Proof. reflexivity. Qed.

Lemma run_blink_partial (r : nat) (m : machine) :
  (r < 5)%nat -> run r blink m = ran m (firstn r cycle).
Proof.
  intros Hr. do 5 (destruct r as [|r]; [reflexivity|]). lia.
Qed.

Lemma run_blink (k r : nat) (m : machine) :
  (r < 5)%nat -> run (r + 5 * k) blink m = ran m (cycles k ++ firstn r cycle).
Proof.
  intros Hr. revert m. induction k as [|k IH]; intros m.
  - rewrite Nat.mul_0_r, Nat.add_0_r. apply run_blink_partial, Hr.
  - replace (r + 5 * S k)%nat with (S (S (S (S (S (r + 5 * k)))))) by lia.
    rewrite run_blink_cycle, IH. reflexivity.
Qed.

Lemma run_main (k r : nat) (m : machine) :
  (r < 5)%nat ->
  run (2 + (r + 5 * k)) main m = ran m (init_calls ++ cycles k ++ firstn r cycle).
Proof.
  intros Hr. change (2 + (r + 5 * k))%nat with (S (S (r + 5 * k))).
  rewrite run_main_init, run_blink by exact Hr. reflexivity.
Qed.

Lemma fuel_split (n : nat) : exists k r, (r < 5)%nat /\ n = (r + 5 * k)%nat.
Proof.
  exists (n / 5)%nat, (n mod 5)%nat. split.
  - apply Nat.mod_upper_bound. discriminate.
  - rewrite Nat.add_comm. apply Nat.div_mod_eq.
Qed.

(** Whatever the fuel, the calls made so far are the beginning of the
    initialization followed by whole cycles, on every machine. *)
Lemma run_main_prefix (fuel : nat) :
  exists cs k rest,
    (forall m, run fuel main m = ran m cs) /\
    cs ++ rest = init_calls ++ cycles k.
Proof.
  destruct fuel as [|[|n]].
  - exists [], 0%nat, init_calls. split; reflexivity.
  - exists [CInit 25], 0%nat, [CSetDir 25 GPIO_OUT]. split; reflexivity.
  - destruct (fuel_split n) as (k & r & Hr & ->).
    exists (init_calls ++ cycles k ++ firstn r cycle), (S k), (skipn r cycle).
    split; [intros m; apply (run_main k r m Hr)|].
    rewrite <- !app_assoc, firstn_skipn. unfold cycles.
    replace (S k) with (k + 1)%nat by lia.
    rewrite repeat_app, concat_app. reflexivity.
Qed.

(** ** The machine, bit by bit *)

Lemma testbit_mask_led (i : Z) : Z.testbit (mask 25) i = (25 =? i).
Proof. change (mask 25) with (2 ^ 25). apply Z.pow2_bits_eqb. lia. Qed.

Lemma exec_out (c : call) (m : machine) (i : Z) :
  Z.testbit (sio_out (exec c m)) i =
  match c with
  | CInit g => if Z.testbit (mask g) i then false else Z.testbit (sio_out m) i
  | CPut g v => if Z.testbit (mask g) i then v else Z.testbit (sio_out m) i
  | _ => Z.testbit (sio_out m) i
  end.
Proof.
  destruct c as [g|g d|g v|ms]; simpl.
  - rewrite Z.ldiff_spec.
    now destruct (Z.testbit (mask g) i), (Z.testbit (sio_out m) i).
  - now destruct d.
  - destruct v; simpl; rewrite ?Z.lor_spec, ?Z.ldiff_spec;
      now destruct (Z.testbit (mask g) i), (Z.testbit (sio_out m) i).
  - reflexivity.
Qed.

Lemma exec_oe (c : call) (m : machine) (i : Z) :
  Z.testbit (sio_oe (exec c m)) i =
  match c with
  | CInit g => if Z.testbit (mask g) i then false else Z.testbit (sio_oe m) i
  | CSetDir g GPIO_OUT => if Z.testbit (mask g) i then true else Z.testbit (sio_oe m) i
  | CSetDir g GPIO_IN => if Z.testbit (mask g) i then false else Z.testbit (sio_oe m) i
  | _ => Z.testbit (sio_oe m) i
  end.
Proof.
  destruct c as [g|g d|g v|ms]; simpl.
  - rewrite Z.ldiff_spec.
    now destruct (Z.testbit (mask g) i), (Z.testbit (sio_oe m) i).
  - destruct d; simpl; rewrite ?Z.lor_spec, ?Z.ldiff_spec;
      now destruct (Z.testbit (mask g) i), (Z.testbit (sio_oe m) i).
  - now destruct v.
  - reflexivity.
Qed.

Lemma exec_sio (c : call) (m : machine) (i : Z) :
  Z.testbit (io_sio (exec c m)) i =
  match c with
  | CInit g => if Z.testbit (mask g) i then true else Z.testbit (io_sio m) i
  | _ => Z.testbit (io_sio m) i
  end.
Proof.
  destruct c as [g|g d|g v|ms]; simpl.
  - rewrite Z.lor_spec.
    now destruct (Z.testbit (mask g) i), (Z.testbit (io_sio m) i).
  - now destruct d.
  - now destruct v.
  - reflexivity.
Qed.

Lemma exec_now (c : call) (m : machine) :
  now (exec c m) = match c with CSleep ms => now m + ms | _ => now m end.
Proof. destruct c as [g|g d|g v|ms]; simpl; try reflexivity; [now destruct d|now destruct v]. Qed.

Lemma execs_app (cs ds : list call) (m : machine) :
  execs (cs ++ ds) m = execs ds (execs cs m).
Proof. apply fold_left_app. Qed.

Lemma stamp_app (cs ds : list call) (m : machine) :
  stamp m (cs ++ ds) = stamp m cs ++ stamp (execs cs m) ds.
Proof.
  revert m. induction cs as [|c cs IH]; intros m; simpl; [reflexivity|].
  now rewrite IH.
Qed.

Lemma map_snd_stamp (cs : list call) (m : machine) : map snd (stamp m cs) = cs.
Proof.
  revert m. induction cs as [|c cs IH]; intros m; simpl; [reflexivity|].
  now rewrite IH.
Qed.

(** ** The LED line *)

Lemma line_put_led (m : machine) (v : bool) :
  line m 25 <> None -> line (exec (CPut 25 v) m) 25 = Some v.
Proof.
  unfold line. rewrite exec_out, exec_oe, exec_sio, testbit_mask_led.
  destruct (Z.testbit (io_sio m) 25 && Z.testbit (sio_oe m) 25);
    [reflexivity|congruence].
Qed.

Lemma line_init_led (m : machine) : line (exec (CInit 25) m) 25 = None.
Proof.
  unfold line. rewrite exec_oe, testbit_mask_led, Z.eqb_refl, andb_false_r.
  reflexivity.
Qed.

Lemma line_initialized (m : machine) : line (execs init_calls m) 25 = Some false.
Proof.
  change (execs init_calls m) with (exec (CSetDir 25 GPIO_OUT) (exec (CInit 25) m)).
  unfold line. rewrite !exec_out, !exec_oe, !exec_sio, testbit_mask_led.
  reflexivity.
Qed.

Lemma line_cycle (m : machine) :
  line m 25 <> None -> line (execs cycle m) 25 = Some false.
Proof.
  intros H.
  change (execs cycle m) with
    (exec (CSleep 500) (exec (CPut 25 false) (exec (CSleep 500) (exec (CPut 25 true) m)))).
  change (line (exec (CPut 25 false) (exec (CSleep 500) (exec (CPut 25 true) m))) 25
          = Some false).
  apply line_put_led.
  change (line (exec (CPut 25 true) m) 25 <> None).
  now rewrite (line_put_led m true H).
Qed.

Lemma now_cycle (m : machine) : now (execs cycle m) = now m + 1000.
Proof. simpl. lia. Qed.

(** Calls that neither initialize a pin nor set a direction leave every
    direction and every routing as they are. *)
Lemma execs_keeps_direction (cs : list call) (m : machine) (i : Z) :
  existsb sets_direction cs = false ->
  Z.testbit (sio_oe (execs cs m)) i = Z.testbit (sio_oe m) i /\
  Z.testbit (io_sio (execs cs m)) i = Z.testbit (io_sio m) i.
Proof.
  revert m. induction cs as [|c cs IH]; intros m H; [now split|].
  simpl in H. apply orb_false_iff in H. destruct H as [Hc Hcs].
  change (execs (c :: cs) m) with (execs cs (exec c m)).
  destruct (IH (exec c m) Hcs) as [-> ->].
  rewrite exec_oe, exec_sio. destruct c; try discriminate; now split.
Qed.

(** ** The other pins *)

Lemma exec_frame (c : call) (m : machine) (g : Z) :
  on_led c = true -> g <> 25 ->
  Z.testbit (sio_out (exec c m)) g = Z.testbit (sio_out m) g /\
  Z.testbit (sio_oe (exec c m)) g = Z.testbit (sio_oe m) g /\
  Z.testbit (io_sio (exec c m)) g = Z.testbit (io_sio m) g.
Proof.
  intros Hc Hg. rewrite exec_out, exec_oe, exec_sio.
  assert (E : (25 =? g) = false) by (apply Z.eqb_neq; lia).
  destruct c as [p|p d|p v|ms]; unfold on_led in Hc; simpl in Hc;
    try (apply Z.eqb_eq in Hc; subst p; rewrite testbit_mask_led, E);
    try destruct d; auto.
Qed.

Lemma execs_frame (cs : list call) (m : machine) (g : Z) :
  forallb on_led cs = true -> g <> 25 ->
  Z.testbit (sio_out (execs cs m)) g = Z.testbit (sio_out m) g /\
  Z.testbit (sio_oe (execs cs m)) g = Z.testbit (sio_oe m) g /\
  Z.testbit (io_sio (execs cs m)) g = Z.testbit (io_sio m) g.
Proof.
  intros H Hg. revert m H. induction cs as [|c cs IH]; intros m H; [auto|].
  simpl in H. apply andb_true_iff in H. destruct H as [Hc Hcs].
  change (execs (c :: cs) m) with (execs cs (exec c m)).
  destruct (IH (exec c m) Hcs) as (-> & -> & ->).
  apply exec_frame; assumption.
Qed.

Lemma cycles_on_led (k : nat) : forallb on_led (cycles k) = true.
Proof.
  induction k as [|k IH]; [reflexivity|].
  change (cycles (S k)) with (cycle ++ cycles k).
  rewrite forallb_app, IH. reflexivity.
Qed.

Lemma cycles_keep_direction (k : nat) : existsb sets_direction (cycles k) = false.
Proof.
  induction k as [|k IH]; [reflexivity|].
  change (cycles (S k)) with (cycle ++ cycles k).
  rewrite existsb_app, IH. reflexivity.
Qed.

(** ** Transitions *)

Lemma edges_same (g : Z) (m : machine) (ts : Z) (c : call) (tr : list (Z * call)) :
  line (exec c m) g = line m g ->
  edges g m ((ts, c) :: tr) = edges g (exec c m) tr.
Proof.
  intros H. simpl. rewrite H. destruct (line m g) as [a|]; [|reflexivity].
  now rewrite Bool.eqb_reflx.
Qed.

Lemma edges_flip (g : Z) (m : machine) (ts : Z) (c : call)
    (tr : list (Z * call)) (a : bool) :
  line m g = Some a -> line (exec c m) g = Some (negb a) ->
  edges g m ((ts, c) :: tr) = (ts, negb a) :: edges g (exec c m) tr.
Proof. intros H1 H2. simpl. rewrite H1, H2. now destruct a. Qed.

Lemma edges_undriven (g : Z) (m : machine) (ts : Z) (c : call)
    (tr : list (Z * call)) :
  line (exec c m) g = None ->
  edges g m ((ts, c) :: tr) = edges g (exec c m) tr.
Proof. intros H. simpl. rewrite H. now destruct (line m g). Qed.

Lemma edges_from_undriven (g : Z) (m : machine) (ts : Z) (c : call)
    (tr : list (Z * call)) :
  line m g = None ->
  edges g m ((ts, c) :: tr) = edges g (exec c m) tr.
Proof. intros H. simpl. now rewrite H. Qed.

Lemma edges_app (g : Z) (tr1 tr2 : list (Z * call)) (m : machine) :
  edges g m (tr1 ++ tr2) = edges g m tr1 ++ edges g (execs (map snd tr1) m) tr2.
Proof.
  revert m. induction tr1 as [|[ts c] tr1 IH]; intros m; [reflexivity|].
  simpl. rewrite IH.
  destruct (line m g) as [a|], (line (exec c m) g) as [b|]; try reflexivity.
  now destruct (Bool.eqb a b).
Qed.

Lemma edges_cycle (m : machine) :
  line m 25 = Some false ->
  edges 25 m (stamp m cycle) = [(now m, true); (now m + 500, false)].
Proof.
  intros H. unfold cycle. cbn [stamp].
  assert (H1 : line (exec (CPut 25 true) m) 25 = Some true)
    by (apply line_put_led; congruence).
  rewrite (edges_flip 25 m _ _ _ false H H1).
  rewrite edges_same by reflexivity.
  set (m2 := exec (CSleep 500) (exec (CPut 25 true) m)).
  assert (H2 : line m2 25 = Some true) by exact H1.
  assert (H3 : line (exec (CPut 25 false) m2) 25 = Some false)
    by (apply line_put_led; congruence).
  rewrite (edges_flip 25 m2 _ _ _ true H2 H3).
  rewrite edges_same by reflexivity.
  reflexivity.
Qed.

Lemma wave_S (t0 : Z) (k : nat) :
  wave t0 (S k) = (t0, true) :: (t0 + 500, false) :: wave (t0 + 1000) k.
Proof.
  unfold wave. replace (2 * S k)%nat with (S (S (2 * k))) by lia.
  cbn [seq map Nat.even].
  rewrite <- !seq_shift, !map_map.
  replace (t0 + 500 * Z.of_nat 0) with t0 by lia.
  replace (t0 + 500 * Z.of_nat 1) with (t0 + 500) by lia.
  do 2 f_equal. apply map_ext. intros i. cbn [Nat.even]. f_equal. lia.
Qed.

Lemma edges_cycles (k : nat) (m : machine) :
  line m 25 = Some false ->
  edges 25 m (stamp m (cycles k)) = wave (now m) k.
Proof.
  revert m. induction k as [|k IH]; intros m H; [reflexivity|].
  change (cycles (S k)) with (cycle ++ cycles k).
  rewrite stamp_app, edges_app, map_snd_stamp, edges_cycle by exact H.
  rewrite IH by (apply line_cycle; congruence).
  rewrite now_cycle, wave_S. reflexivity.
Qed.

Lemma edges_main (k : nat) (m : machine) :
  edges 25 m (stamp m (init_calls ++ cycles k)) = wave (now m) k.
Proof.
  rewrite stamp_app, edges_app, map_snd_stamp.
  rewrite edges_cycles by apply line_initialized.
  unfold init_calls. cbn [stamp].
  rewrite edges_undriven by apply line_init_led.
  rewrite edges_from_undriven by apply line_init_led.
  reflexivity.
Qed.

(** ** Sampling *)

Lemma replay_app (t : Z) (tr1 tr2 : list (Z * call)) (m : machine) :
  replay t (tr1 ++ tr2) m = replay t tr2 (replay t tr1 m).
Proof. apply fold_left_app. Qed.

Lemma replay_cons (t ts : Z) (c : call) (tr : list (Z * call)) (m : machine) :
  replay t ((ts, c) :: tr) m =
  replay t tr (if ts <=? t then exec c m else m).
Proof. reflexivity. Qed.

Lemma replay_init (t : Z) (m m0 : machine) :
  now m <= t -> replay t (stamp m init_calls) m0 = execs init_calls m0.
Proof.
  intros H. unfold init_calls. cbn [stamp]. rewrite !replay_cons.
  change (now (exec (CInit 25) m)) with (now m).
  replace (now m <=? t) with true by (symmetry; apply Z.leb_le; lia).
  reflexivity.
Qed.

Lemma stamp_cycle (m : machine) :
  stamp m cycle =
  [(now m, CPut 25 true); (now m, CSleep 500);
   (now m + 500, CPut 25 false); (now m + 500, CSleep 500)].
Proof. reflexivity. Qed.

Lemma replay_cycle_past (t : Z) (m m0 : machine) :
  now m + 500 <= t -> replay t (stamp m cycle) m0 = execs cycle m0.
Proof.
  intros H. rewrite stamp_cycle, !replay_cons.
  replace (now m <=? t) with true by (symmetry; apply Z.leb_le; lia).
  replace (now m + 500 <=? t) with true by (symmetry; apply Z.leb_le; lia).
  reflexivity.
Qed.

Lemma replay_cycle_half (t : Z) (m m0 : machine) :
  now m <= t < now m + 500 ->
  replay t (stamp m cycle) m0 = exec (CSleep 500) (exec (CPut 25 true) m0).
Proof.
  intros H. rewrite stamp_cycle, !replay_cons.
  replace (now m <=? t) with true by (symmetry; apply Z.leb_le; lia).
  replace (now m + 500 <=? t) with false by (symmetry; apply Z.leb_gt; lia).
  reflexivity.
Qed.

Lemma replay_cycles_future (t : Z) (k : nat) (m m0 : machine) :
  t < now m -> replay t (stamp m (cycles k)) m0 = m0.
Proof.
  revert m m0. induction k as [|k IH]; intros m m0 H; [reflexivity|].
  change (cycles (S k)) with (cycle ++ cycles k).
  rewrite stamp_app, replay_app, IH by (rewrite now_cycle; lia).
  rewrite stamp_cycle, !replay_cons.
  replace (now m <=? t) with false by (symmetry; apply Z.leb_gt; lia).
  replace (now m + 500 <=? t) with false by (symmetry; apply Z.leb_gt; lia).
  reflexivity.
Qed.

Lemma sample_cycles (k j : nat) (m : machine) :
  (j < 2 * k)%nat -> line m 25 <> None ->
  sample 25 (now m + 500 * Z.of_nat j) (stamp m (cycles k)) m = Some (Nat.even j).
Proof.
  unfold sample. revert j m. induction k as [|k IH]; intros j m Hj Hm; [lia|].
  change (cycles (S k)) with (cycle ++ cycles k).
  rewrite stamp_app, replay_app.
  destruct j as [|[|j]].
  - rewrite replay_cycle_half by lia.
    rewrite replay_cycles_future by (rewrite now_cycle; lia).
    change (line (exec (CPut 25 true) m) 25 = Some true).
    apply line_put_led, Hm.
  - rewrite replay_cycle_past by lia.
    rewrite replay_cycles_future by (rewrite now_cycle; lia).
    apply line_cycle, Hm.
  - rewrite replay_cycle_past by lia.
    replace (now m + 500 * Z.of_nat (S (S j)))
      with (now (execs cycle m) + 500 * Z.of_nat j) by (rewrite now_cycle; lia).
    rewrite IH; [reflexivity|lia|].
    rewrite line_cycle by exact Hm. discriminate.
Qed.

Lemma sample_main (k j : nat) (m : machine) :
  (j < 2 * k)%nat ->
  sample 25 (now m + 500 * Z.of_nat j) (stamp m (init_calls ++ cycles k)) m
  = Some (Nat.even j).
Proof.
  intros Hj. unfold sample. rewrite stamp_app, replay_app, replay_init by lia.
  change (now m) with (now (execs init_calls m)).
  apply sample_cycles; [exact Hj|].
  rewrite line_initialized. discriminate.
Qed.

(** ** Machines that agree on the LED pin *)

Lemma agree_exec (c : call) (m1 m2 : machine) :
  agree m1 m2 -> agree (exec c m1) (exec c m2).
Proof.
  intros (Hn & Ho & He & Hs). unfold agree.
  rewrite !exec_now, !exec_out, !exec_oe, !exec_sio, Hn, Ho, He, Hs.
  repeat split.
Qed.

Lemma agree_line (m1 m2 : machine) : agree m1 m2 -> line m1 25 = line m2 25.
Proof. intros (_ & Ho & He & Hs). unfold line. now rewrite Ho, He, Hs. Qed.

Lemma agree_init (m1 m2 : machine) :
  now m1 = now m2 -> agree (exec (CInit 25) m1) (exec (CInit 25) m2).
Proof.
  intros Hn. unfold agree.
  rewrite !exec_now, !exec_out, !exec_oe, !exec_sio, testbit_mask_led, Hn.
  repeat split.
Qed.

Lemma agree_stamp (cs : list call) (m1 m2 : machine) :
  agree m1 m2 ->
  stamp m1 cs = stamp m2 cs /\
  edges 25 m1 (stamp m1 cs) = edges 25 m2 (stamp m2 cs) /\
  agree (execs cs m1) (execs cs m2).
Proof.
  revert m1 m2. induction cs as [|c cs IH]; intros m1 m2 H.
  { split; [reflexivity|]. split; [reflexivity|exact H]. }
  pose proof (agree_exec c m1 m2 H) as H'.
  destruct (IH _ _ H') as (Hs & He & Ha).
  cbn [stamp edges]. rewrite He, Hs, (agree_line _ _ H), (agree_line _ _ H').
  destruct H as [-> _].
  split; [reflexivity|]. split; [reflexivity|exact Ha].
Qed.

Lemma run_blink_first (n : nat) (m : machine) :
  exists o, run (S n) blink m = logged (now m, CPut 25 true) o.
Proof. eexists. reflexivity. Qed.

Lemma firstn_cycle_keeps_direction (r : nat) :
  existsb sets_direction (firstn r cycle) = false.
Proof. do 5 (destruct r as [|r]; [reflexivity|]). reflexivity. Qed.

Lemma trace_full (k : nat) (m : machine) :
  trace (run (2 + 5 * k) main m) = stamp m (init_calls ++ cycles k).
Proof.
  change (2 + 5 * k)%nat with (2 + (0 + 5 * k))%nat.
  rewrite (run_main k 0 m) by lia. unfold ran. cbn [trace firstn].
  now rewrite app_nil_r.
Qed.

Lemma edges_run_full (k : nat) (m : machine) :
  edges 25 m (trace (run (2 + 5 * k) main m)) = wave (now m) k.
Proof. rewrite trace_full. apply edges_main. Qed.

Lemma edges_run_prefix (fuel : nat) (m : machine) :
  exists k rest, edges 25 m (trace (run fuel main m)) ++ rest = wave (now m) k.
Proof.
  destruct (run_main_prefix fuel) as (cs & k & rest & Hrun & Hcs).
  exists k, (edges 25 (execs cs m) (stamp (execs cs m) rest)).
  rewrite Hrun. unfold ran. cbn [trace].
  rewrite <- edges_main, <- Hcs, stamp_app, edges_app, map_snd_stamp.
  reflexivity.
Qed.

Lemma wave_nth (t0 : Z) (k i : nat) :
  nth_error (wave t0 k) i =
  if (i <? 2 * k)%nat then Some (t0 + 500 * Z.of_nat i, Nat.even i) else None.
Proof.
  unfold wave. rewrite nth_error_map, nth_error_seq.
  now destruct (i <? 2 * k)%nat.
Qed.

Lemma wave_in (t0 : Z) (k i : nat) :
  (i < 2 * k)%nat -> In (t0 + 500 * Z.of_nat i, Nat.even i) (wave t0 k).
Proof.
  intros H. unfold wave.
  apply (in_map (fun i => (t0 + 500 * Z.of_nat i, Nat.even i))).
  apply in_seq. lia.
Qed.

Lemma wave_length (t0 : Z) (k : nat) : length (wave t0 k) = (2 * k)%nat.
Proof. unfold wave. now rewrite length_map, length_seq. Qed.

(** The [i]-th transition of the LED pin, when the run has got that far. *)
Lemma edge_at (fuel : nat) (m : machine) (i : nat) (t : Z) (l : bool) :
  nth_error (edges 25 m (trace (run fuel main m))) i = Some (t, l) ->
  t = now m + 500 * Z.of_nat i /\ l = Nat.even i.
Proof.
  intros H. destruct (edges_run_prefix fuel m) as (k & rest & E).
  assert (Hi : (i < length (edges 25 m (trace (run fuel main m))))%nat)
    by (apply nth_error_Some; congruence).
  rewrite <- (nth_error_app1 _ rest Hi), E, wave_nth in H.
  destruct (i <? 2 * k)%nat; [|discriminate].
  injection H as <- <-. now split.
Qed.

(** ** Initializing twice *)

Lemma testbit_mask_self (g : Z) : 0 <= g < 32 -> Z.testbit (mask g) g = true.
Proof.
  intros H. unfold mask. rewrite Z.shiftl_1_l, Z.mod_small.
  - rewrite Z.pow2_bits_eqb by lia. apply Z.eqb_refl.
  - split; [apply Z.pow_nonneg; lia|apply Z.pow_lt_mono_r; lia].
Qed.

Lemma run_initialize (g : Z) (m : machine) :
  run 3 (initialize g) m =
  Outcome [(now m, CInit g); (now m, CSetDir g GPIO_OUT)]
          (execs [CInit g; CSetDir g GPIO_OUT] m) (Some tt).
Proof. reflexivity. Qed.

Lemma main_starts_with_initialize (m : machine) :
  trace (run 2 main m) = trace (run 3 (initialize LED_PIN) m) /\
  final (run 2 main m) = final (run 3 (initialize LED_PIN) m).
Proof. split; reflexivity. Qed.

Lemma execs_initialize_twice (g : Z) (m : machine) :
  execs [CInit g; CSetDir g GPIO_OUT] (execs [CInit g; CSetDir g GPIO_OUT] m) =
  execs [CInit g; CSetDir g GPIO_OUT] m.
Proof.
  cbn [execs fold_left exec set_function_sio put set_dir sio_out sio_oe io_sio now].
  f_equal; apply Z.bits_inj'; intros n _;
    rewrite ?Z.lor_spec, ?Z.ldiff_spec, ?Z.lor_spec, ?Z.ldiff_spec;
    destruct (Z.testbit (mask g) n);
    rewrite ?andb_false_r, ?orb_true_r, ?orb_false_r, ?andb_true_r;
    reflexivity.
Qed.

Lemma edges_initialize (g : Z) (m : machine) (t1 t2 : Z) :
  edges g m [(t1, CInit g); (t2, CSetDir g GPIO_OUT)] = [].
Proof.
  destruct (Z.testbit (mask g) g) eqn:E.
  - assert (H : line (exec (CInit g) m) g = None)
      by (unfold line; now rewrite exec_oe, E, andb_false_r).
    rewrite edges_undriven by exact H.
    rewrite edges_from_undriven by exact H. reflexivity.
  - rewrite edges_same.
    + rewrite edges_same; [reflexivity|].
      unfold line. now rewrite exec_out, exec_oe, exec_sio, E.
    + unfold line. now rewrite exec_out, exec_oe, exec_sio, E.
Qed.

(** ** Two runs from different machines *)

Lemma run_main_first (n : nat) (m : machine) :
  run (S n) main m =
  logged (now m, CInit 25) (run n (Ret tt ;; gpio_set_dir LED_PIN GPIO_OUT ;; blink)
                              (exec (CInit 25) m)).
Proof. reflexivity. Qed.

Lemma runs_agree (fuel : nat) (m1 m2 : machine) :
  now m1 = now m2 ->
  trace (run fuel main m1) = trace (run fuel main m2) /\
  edges 25 m1 (trace (run fuel main m1)) = edges 25 m2 (trace (run fuel main m2)) /\
  result (run fuel main m1) = result (run fuel main m2) /\
  (fuel <> 0%nat -> agree (final (run fuel main m1)) (final (run fuel main m2))).
Proof.
  intros Hn. destruct (run_main_prefix fuel) as (cs & k & rest & Hrun & Hcs).
  destruct cs as [|c cs].
  - rewrite !Hrun. do 3 (split; [reflexivity|]). intros H0. exfalso.
    destruct fuel as [|n]; [congruence|].
    specialize (Hrun m1). rewrite run_main_first in Hrun. discriminate Hrun.
  - rewrite !Hrun. unfold ran. cbn [trace result final].
    unfold init_calls in Hcs. cbn [app] in Hcs. injection Hcs as -> _.
    destruct (agree_stamp cs _ _ (agree_init m1 m2 Hn)) as (Hs & He & Ha).
    cbn [stamp]. rewrite !edges_undriven by apply line_init_led.
    rewrite He, Hs, Hn. do 3 (split; [reflexivity|]). intros _. exact Ha.
Qed.

(** * The claims *)

(** C1. After the two initialization calls, [main] does nothing but repeat,
    in this order, pin 25 HIGH, sleep 500 ms, pin 25 LOW, sleep 500 ms.
    After [k] turns of the loop the calls made are exactly the
    initialization followed by [k] such cycles with nothing in between;
    at every point of a run the program is still running and the calls made
    so far are the beginning of such a sequence. *)
Theorem main_is_init_then_cycles :
  (forall (k : nat) (m : machine),
     calls (run (2 + 5 * k) main m) =
     [CInit 25; CSetDir 25 GPIO_OUT] ++
     concat (repeat [CPut 25 true; CSleep 500; CPut 25 false; CSleep 500] k)) /\
  (forall (fuel : nat) (m : machine),
     result (run fuel main m) = None /\
     exists k rest,
       calls (run fuel main m) ++ rest =
       [CInit 25; CSetDir 25 GPIO_OUT] ++
       concat (repeat [CPut 25 true; CSleep 500; CPut 25 false; CSleep 500] k)).
Proof.
  split.
  - intros k m. change (2 + 5 * k)%nat with (2 + (0 + 5 * k))%nat.
    rewrite (run_main k 0 m) by lia.
    unfold calls, ran. cbn [trace firstn]. rewrite map_snd_stamp, app_nil_r.
    reflexivity.
  - intros fuel m. destruct (run_main_prefix fuel) as (cs & k & rest & Hrun & Hcs).
    rewrite Hrun. split; [reflexivity|]. exists k, rest.
    unfold calls, ran. cbn [trace]. rewrite map_snd_stamp. exact Hcs.
Qed.

(** C2. Once the two initialization calls are done no level has been
    written yet and pin 25 is driven LOW; from the next step on, the first
    level written in the trace is HIGH on pin 25. *)
Theorem first_write_is_high (m : machine) :
  filter is_put (calls (run 2 main m)) = [] /\
  line (final (run 2 main m)) 25 = Some false /\
  forall n : nat,
    hd_error (filter is_put (calls (run (3 + n) main m))) = Some (CPut 25 true).
Proof.
  split; [reflexivity|]. split.
  - change (final (run 2 main m)) with (execs init_calls m).
    apply line_initialized.
  - intros n. change (3 + n)%nat with (S (S (S n))).
    rewrite run_main_init.
    destruct (run_blink_first n (execs init_calls m)) as [o ->].
    reflexivity.
Qed.

(** C3. [main] never returns: however long it runs its result is still
    pending, so [return 0] is not reached, and it keeps making calls, two
    for the initialization and four per turn of the loop. *)
Theorem main_never_returns :
  (forall (fuel : nat) (m : machine), result (run fuel main m) = None) /\
  (forall (k : nat) (m : machine),
     length (trace (run (2 + 5 * k) main m)) = (2 + 4 * k)%nat).
Proof.
  split.
  - intros fuel m. destruct (run_main_prefix fuel) as (cs & k & rest & Hrun & _).
    rewrite Hrun. reflexivity.
  - intros k m. change (2 + 5 * k)%nat with (2 + (0 + 5 * k))%nat.
    rewrite (run_main k 0 m) by lia. unfold ran. cbn [trace firstn].
    rewrite app_nil_r, <- (length_map snd), map_snd_stamp.
    change (S (S (length (cycles k))) = (2 + 4 * k)%nat).
    induction k as [|k IH]; [reflexivity|].
    change (cycles (S k)) with (cycle ++ cycles k).
    rewrite length_app. change (length cycle) with 4%nat. lia.
Qed.

(** C5. At every step after the initialization pin 25 is an output, no
    call that could change a direction has been made since, and the pin is
    driven either HIGH or LOW. *)
Theorem direction_stays_output (n : nat) (m : machine) :
  direction (final (run (2 + n) main m)) 25 = GPIO_OUT /\
  existsb sets_direction (skipn 2 (calls (run (2 + n) main m))) = false /\
  (line (final (run (2 + n) main m)) 25 = Some true \/
   line (final (run (2 + n) main m)) 25 = Some false).
Proof.
  destruct (fuel_split n) as (k & r & Hr & ->).
  rewrite (run_main k r m Hr). unfold calls, ran. cbn [trace final].
  rewrite map_snd_stamp, execs_app.
  assert (Hk : existsb sets_direction (cycles k ++ firstn r cycle) = false)
    by (rewrite existsb_app, cycles_keep_direction; apply firstn_cycle_keeps_direction).
  destruct (execs_keeps_direction _ (execs init_calls m) 25 Hk) as [Hoe Hsio].
  assert (Hoe0 : Z.testbit (sio_oe (execs init_calls m)) 25 = true).
  { change (execs init_calls m) with (exec (CSetDir 25 GPIO_OUT) (exec (CInit 25) m)).
    rewrite exec_oe, testbit_mask_led. reflexivity. }
  assert (Hsio0 : Z.testbit (io_sio (execs init_calls m)) 25 = true).
  { change (execs init_calls m) with (exec (CSetDir 25 GPIO_OUT) (exec (CInit 25) m)).
    rewrite !exec_sio, testbit_mask_led. reflexivity. }
  split; [|split].
  - unfold direction. now rewrite Hoe, Hoe0.
  - exact Hk.
  - unfold line. rewrite Hoe, Hsio, Hoe0, Hsio0. cbn [andb].
    destruct (Z.testbit (sio_out _) 25); [now left|now right].
Qed.

(** C4. After [k] turns of the loop pin 25 has made exactly [2 * k]
    transitions, the first one to HIGH when the loop starts and each of the
    others 500 ms after the one before and the opposite way: the pin stays
    HIGH for 500 ms, then LOW for 500 ms, with a period of 1000 ms, half of
    it HIGH.  At any point of a run two consecutive transitions are 500 ms
    apart and opposite, and a transition and the next but one are 1000 ms
    apart and alike.  Time is the machine's clock, which only [sleep_ms]
    advances, by the time asked. *)
Theorem dwell_is_half_period :
  (forall (k : nat) (m : machine),
     edges 25 m (trace (run (2 + 5 * k) main m)) =
     map (fun i => (now m + 500 * Z.of_nat i, Nat.even i)) (seq 0 (2 * k))) /\
  (forall (k : nat) (m : machine) (i : nat),
     (S i < 2 * k)%nat ->
     exists t l,
       nth_error (edges 25 m (trace (run (2 + 5 * k) main m))) i = Some (t, l) /\
       nth_error (edges 25 m (trace (run (2 + 5 * k) main m))) (S i)
         = Some (t + 500, negb l)) /\
  (forall (fuel : nat) (m : machine) (i : nat) (t1 t2 : Z) (l1 l2 : bool),
     nth_error (edges 25 m (trace (run fuel main m))) i = Some (t1, l1) ->
     nth_error (edges 25 m (trace (run fuel main m))) (S i) = Some (t2, l2) ->
     t2 - t1 = 500 /\ l2 = negb l1 /\
     forall t3 l3,
       nth_error (edges 25 m (trace (run fuel main m))) (S (S i)) = Some (t3, l3) ->
       t3 - t1 = 2 * 500 /\ l3 = l1).
Proof.
  split; [|split].
  - intros k m. apply edges_run_full.
  - intros k m i Hi. rewrite edges_run_full, !wave_nth.
    replace (i <? 2 * k)%nat with true by (symmetry; apply Nat.ltb_lt; lia).
    replace (S i <? 2 * k)%nat with true by (symmetry; apply Nat.ltb_lt; lia).
    exists (now m + 500 * Z.of_nat i), (Nat.even i). split; [reflexivity|].
    rewrite Nat.even_succ, Nat.negb_even. do 2 f_equal. lia.
  - intros fuel m i t1 t2 l1 l2 H1 H2.
    apply edge_at in H1. destruct H1 as [-> ->].
    apply edge_at in H2. destruct H2 as [-> ->].
    split; [lia|]. split.
    + now rewrite Nat.even_succ, Nat.negb_even.
    + intros t3 l3 H3. apply edge_at in H3. destruct H3 as [-> ->].
      split; [lia|reflexivity].
Qed.

Lemma dwell_is_half_period_witness :
  edges 25 (boot 0 0 0) (trace (run (2 + 5 * 2) main (boot 0 0 0))) =
    [(0, true); (500, false); (1000, true); (1500, false)] /\
  (1 < 2 * 2)%nat /\
  nth_error (edges 25 (boot 0 0 0) (trace (run 17 main (boot 0 0 0)))) 0
    = Some (0, true) /\
  nth_error (edges 25 (boot 0 0 0) (trace (run 17 main (boot 0 0 0)))) 1
    = Some (500, false) /\
  500 - 0 = 500 /\ false = negb true /\ 1000 - 0 = 2 * 500 /\ true = true.
Proof.
  destruct dwell_is_half_period as (Hfull & _ & Hstep).
  split; [exact (Hfull 2%nat (boot 0 0 0))|].
  split; [lia|].
  split; [reflexivity|]. split; [reflexivity|].
  destruct (Hstep 17%nat (boot 0 0 0) 0%nat 0 500 true false)
    as (H1 & H2 & H3); [reflexivity|reflexivity|].
  split; [exact H1|]. split; [exact H2|].
  apply (H3 1000 true). reflexivity.
Defined.

(** C6. Take a window of time [t, t + L) that starts after the
    initialization and is at least 1000 ms long.  Once the run has gone past
    its end, the transitions of pin 25 inside the window include one from
    HIGH to LOW and one from LOW to HIGH. *)
Theorem window_has_both_transitions (t L : Z) (k : nat) (o e s : Z) :
  0 <= t -> 2 * 500 <= L -> t + L <= 1000 * Z.of_nat k ->
  (exists tf, t <= tf < t + L /\
     In (tf, false) (edges 25 (boot o e s) (trace (run (2 + 5 * k) main (boot o e s))))) /\
  (exists tr, t <= tr < t + L /\
     In (tr, true) (edges 25 (boot o e s) (trace (run (2 + 5 * k) main (boot o e s))))).
Proof.
  intros Ht HL Hk. rewrite edges_run_full. change (now (boot o e s)) with 0.
  split.
  - pose proof (Z.div_mod (t + 499) 1000 ltac:(lia)) as Hq.
    pose proof (Z.mod_pos_bound (t + 499) 1000 ltac:(lia)) as Hr.
    set (q := (t + 499) / 1000) in *. set (r := (t + 499) mod 1000) in *.
    clearbody q r.
    exists (0 + 500 * Z.of_nat (S (2 * Z.to_nat q))). split; [lia|].
    replace false with (Nat.even (S (2 * Z.to_nat q)))
      by (now rewrite Nat.even_succ, Nat.odd_mul).
    apply wave_in. lia.
  - pose proof (Z.div_mod (t + 999) 1000 ltac:(lia)) as Hq.
    pose proof (Z.mod_pos_bound (t + 999) 1000 ltac:(lia)) as Hr.
    set (q := (t + 999) / 1000) in *. set (r := (t + 999) mod 1000) in *.
    clearbody q r.
    exists (0 + 500 * Z.of_nat (2 * Z.to_nat q)). split; [lia|].
    replace true with (Nat.even (2 * Z.to_nat q))
      by (now rewrite Nat.even_mul).
    apply wave_in. lia.
Qed.

Lemma window_has_both_transitions_witness :
  0 <= 250 /\ 2 * 500 <= 1000 /\ 250 + 1000 <= 1000 * Z.of_nat 2 /\
  exists tf, 250 <= tf < 250 + 1000 /\
    In (tf, false) (edges 25 (boot 0 0 0) (trace (run (2 + 5 * 2) main (boot 0 0 0)))).
Proof.
  split; [lia|]. split; [lia|]. split; [vm_compute; discriminate|].
  apply (window_has_both_transitions 250 1000 2 0 0 0);
    [lia|lia|vm_compute; discriminate].
Defined.

(** C7. Sampled every 500 ms from time 0, pin 25 reads HIGH, LOW, HIGH,
    LOW, ..., for as many periods as the run has completed; the [j]-th
    transition falls exactly on the [j]-th sample and there are two
    transitions per period, none missing and none in excess. *)
Theorem samples_alternate (k j : nat) (o e s : Z) :
  (j < 2 * k)%nat ->
  sample 25 (500 * Z.of_nat j) (trace (run (2 + 5 * k) main (boot o e s))) (boot o e s)
    = Some (Nat.even j) /\
  nth_error (edges 25 (boot o e s) (trace (run (2 + 5 * k) main (boot o e s)))) j
    = Some (500 * Z.of_nat j, Nat.even j) /\
  length (edges 25 (boot o e s) (trace (run (2 + 5 * k) main (boot o e s))))
    = (2 * k)%nat.
Proof.
  intros Hj. rewrite edges_run_full, trace_full, wave_nth, wave_length.
  change (now (boot o e s)) with 0.
  split; [|split].
  - apply (sample_main k j (boot o e s) Hj).
  - apply Nat.ltb_lt in Hj. rewrite Hj. reflexivity.
  - reflexivity.
Qed.

Lemma samples_alternate_witness :
  (3 < 2 * 5)%nat /\
  sample 25 1500 (trace (run (2 + 5 * 5) main (boot 0 0 0))) (boot 0 0 0)
    = Some false.
Proof.
  split; [lia|].
  apply (samples_alternate 5 3 0 0 0). lia.
Defined.

(** Five full periods, sample by sample. *)
Example five_periods :
  map (fun j => sample 25 (500 * Z.of_nat j)
                  (trace (run (2 + 5 * 5) main (boot 0 0 0))) (boot 0 0 0))
      (seq 0 10)
  = [Some true; Some false; Some true; Some false; Some true;
     Some false; Some true; Some false; Some true; Some false].
Proof. vm_compute. reflexivity. Qed.

(** C8. Running the initialization sequence of a pin of the board a
    second time leaves the machine exactly as the first run left it, the
    pin still an output, and makes no transition on the pin. *)
Theorem initialize_twice (g : Z) (m : machine) :
  0 <= g < 32 ->
  result (run 3 (initialize g) m) = Some tt /\
  final (run 3 (initialize g) (final (run 3 (initialize g) m))) =
    final (run 3 (initialize g) m) /\
  direction (final (run 3 (initialize g) m)) g = GPIO_OUT /\
  direction (final (run 3 (initialize g) (final (run 3 (initialize g) m)))) g
    = GPIO_OUT /\
  edges g (final (run 3 (initialize g) m))
    (trace (run 3 (initialize g) (final (run 3 (initialize g) m)))) = [].
Proof.
  intros Hg. rewrite !run_initialize. cbn [result final trace].
  rewrite execs_initialize_twice.
  assert (Hd : direction (execs [CInit g; CSetDir g GPIO_OUT] m) g = GPIO_OUT).
  { change (execs [CInit g; CSetDir g GPIO_OUT] m)
      with (exec (CSetDir g GPIO_OUT) (exec (CInit g) m)).
    unfold direction. rewrite exec_oe, testbit_mask_self by exact Hg.
    reflexivity. }
  repeat split; try exact Hd. apply edges_initialize.
Qed.

Lemma initialize_twice_witness :
  0 <= 25 < 32 /\
  final (run 3 (initialize 25) (final (run 3 (initialize 25) (boot 7 0 0)))) =
    final (run 3 (initialize 25) (boot 7 0 0)).
Proof.
  split; [lia|].
  apply (initialize_twice 25 (boot 7 0 0)). lia.
Defined.

(** C9. The program takes nothing from its environment (every call it
    makes returns [void]), and whatever the registers hold at power-on two
    runs make the same calls at the same times, with the same transitions
    of pin 25 and the same level on it from the first call on. *)
Theorem main_is_deterministic (o1 e1 s1 o2 e2 s2 : Z) :
  (forall fuel : nat,
     trace (run fuel main (boot o1 e1 s1)) = trace (run fuel main (boot o2 e2 s2)) /\
     edges 25 (boot o1 e1 s1) (trace (run fuel main (boot o1 e1 s1))) =
     edges 25 (boot o2 e2 s2) (trace (run fuel main (boot o2 e2 s2))) /\
     result (run fuel main (boot o1 e1 s1)) = result (run fuel main (boot o2 e2 s2))) /\
  (forall n : nat,
     line (final (run (S n) main (boot o1 e1 s1))) 25 =
     line (final (run (S n) main (boot o2 e2 s2))) 25).
Proof.
  split.
  - intros fuel.
    destruct (runs_agree fuel (boot o1 e1 s1) (boot o2 e2 s2) eq_refl)
      as (Ht & He & Hr & _).
    now repeat split.
  - intros n.
    destruct (runs_agree (S n) (boot o1 e1 s1) (boot o2 e2 s2) eq_refl)
      as (_ & _ & _ & Ha).
    apply agree_line, Ha. discriminate.
Qed.

(** C10. Every call of [main] that names a pin names pin 25, and at every
    step the output level, the direction, the routing and the driven level
    of any other pin are what they were before the program started. *)
Theorem only_led_pin_touched (fuel : nat) (m : machine) (g : Z) :
  g <> 25 ->
  (forall c p, In c (calls (run fuel main m)) -> pin_of c = Some p -> p = LED_PIN) /\
  Z.testbit (sio_out (final (run fuel main m))) g = Z.testbit (sio_out m) g /\
  direction (final (run fuel main m)) g = direction m g /\
  Z.testbit (io_sio (final (run fuel main m))) g = Z.testbit (io_sio m) g /\
  line (final (run fuel main m)) g = line m g.
Proof.
  intros Hg. destruct (run_main_prefix fuel) as (cs & k & rest & Hrun & Hcs).
  rewrite Hrun. unfold calls, ran. cbn [trace final]. rewrite map_snd_stamp.
  assert (Hled : forallb on_led cs = true).
  { assert (H : forallb on_led (cs ++ rest) = true)
      by (rewrite Hcs, forallb_app, cycles_on_led; reflexivity).
    rewrite forallb_app in H. apply andb_true_iff in H. apply H. }
  destruct (execs_frame cs m g Hled Hg) as (Ho & He & Hs).
  split; [|split; [|split; [|split]]].
  - intros c p Hin Hp. rewrite forallb_forall in Hled.
    specialize (Hled c Hin). unfold on_led in Hled. rewrite Hp in Hled.
    apply Z.eqb_eq in Hled. exact Hled.
  - exact Ho.
  - unfold direction. now rewrite He.
  - exact Hs.
  - unfold line. now rewrite Ho, He, Hs.
Qed.

Lemma only_led_pin_touched_witness :
  3 <> 25 /\
  Z.testbit (sio_out (final (run 12 main (boot 8 8 8)))) 3 =
  Z.testbit (sio_out (boot 8 8 8)) 3.
Proof.
  split; [discriminate|].
  apply (only_led_pin_touched 12 (boot 8 8 8) 3). discriminate.
Defined.

Example run_main_7 :







  calls (run 7 main (boot 0 0 0)) =
  [CInit 25; CSetDir 25 GPIO_OUT;
   CPut 25 true; CSleep 500; CPut 25 false; CSleep 500].
Proof. vm_compute. reflexivity. Qed.

(** * Further properties of [main] *)

(** ** The level at any time *)

Lemma sample_cycles_any (k : nat) (m : machine) (t : Z) :
  now m <= t < now m + 1000 * Z.of_nat k -> line m 25 <> None ->
  sample 25 t (stamp m (cycles k)) m = Some ((t - now m) mod 1000 <? 500).
Proof.
  unfold sample. revert m. induction k as [|k IH]; intros m Ht Hm; [lia|].
  change (cycles (S k)) with (cycle ++ cycles k).
  rewrite stamp_app, replay_app.
  destruct (Z_lt_le_dec t (now m + 500)) as [Hlo|Hhi].
  - rewrite replay_cycle_half by lia.
    rewrite replay_cycles_future by (rewrite now_cycle; lia).
    rewrite Z.mod_small by lia.
    replace (t - now m <? 500) with true by (symmetry; apply Z.ltb_lt; lia).
    change (line (exec (CPut 25 true) m) 25 = Some true).
    apply line_put_led, Hm.
  - rewrite replay_cycle_past by lia.
    destruct (Z_lt_le_dec t (now m + 1000)) as [Hmid|Hnext].
    + rewrite replay_cycles_future by (rewrite now_cycle; lia).
      rewrite Z.mod_small by lia.
      replace (t - now m <? 500) with false by (symmetry; apply Z.ltb_ge; lia).
      apply line_cycle, Hm.
    + rewrite IH.
      * rewrite now_cycle.
        replace (t - (now m + 1000)) with (t - now m + (-1) * 1000) by lia.
        now rewrite Z_mod_plus_full.
      * rewrite now_cycle. lia.
      * rewrite line_cycle by exact Hm. discriminate.
Qed.

(** X1. At any time before the end of the [k]-th period, pin 25 is HIGH
    during the first 500 ms of the current period of 1000 ms and LOW during
    the rest of it. *)
Theorem level_at_any_time (k : nat) (t o e s : Z) :
  0 <= t < 1000 * Z.of_nat k ->
  sample 25 t (trace (run (2 + 5 * k) main (boot o e s))) (boot o e s)
  = Some (t mod 1000 <? 500).
Proof.
  intros Ht. rewrite trace_full. unfold sample.
  rewrite stamp_app, replay_app, replay_init by (simpl; lia).
  replace t with (t - now (execs init_calls (boot o e s))) at 2
    by (change (now (execs init_calls (boot o e s))) with 0; lia).
  apply sample_cycles_any.
  - change (now (execs init_calls (boot o e s))) with 0. lia.
  - rewrite line_initialized. discriminate.
Qed.

Lemma level_at_any_time_witness :
  0 <= 1234 < 1000 * Z.of_nat 2 /\
  sample 25 1234 (trace (run (2 + 5 * 2) main (boot 0 0 0))) (boot 0 0 0)
  = Some true.
Proof.
  split; [lia|].
  apply (level_at_any_time 2 1234 0 0 0). lia.
Defined.

(** ** The machine at the head of the loop *)

Lemma cycle_is_a_second (m : machine) :
  Z.testbit (sio_out m) 25 = false ->
  execs cycle m = Machine (sio_out m) (sio_oe m) (io_sio m) (now m + 1000).
Proof.
  intros H.
  cbn [execs cycle fold_left exec put sio_out sio_oe io_sio now].
  f_equal; [|lia].
  apply Z.bits_inj'. intros n _.
  rewrite Z.ldiff_spec, Z.lor_spec, testbit_mask_led.
  destruct (25 =? n) eqn:E.
  - apply Z.eqb_eq in E. subst n. rewrite H. reflexivity.
  - now rewrite orb_false_r, andb_true_r.
Qed.

Lemma cycles_are_seconds (k : nat) (m : machine) :
  Z.testbit (sio_out m) 25 = false ->
  execs (cycles k) m =
  Machine (sio_out m) (sio_oe m) (io_sio m) (now m + 1000 * Z.of_nat k).
Proof.
  revert m. induction k as [|k IH]; intros m H.
  - destruct m as [o e s t]. cbn. f_equal. lia.
  - change (cycles (S k)) with (cycle ++ cycles k).
    rewrite execs_app, cycle_is_a_second by exact H.
    rewrite IH by exact H. cbn [sio_out sio_oe io_sio now]. f_equal. lia.
Qed.

(** X2. Each time the loop comes back to its head the three registers are
    exactly as the initialization left them, and one second per completed
    turn has passed. *)
Theorem loop_head_machine (k : nat) (m : machine) :
  final (run (2 + 5 * k) main m) =
  Machine (sio_out (final (run 2 main m)))
          (sio_oe (final (run 2 main m)))
          (io_sio (final (run 2 main m)))
          (now m + 1000 * Z.of_nat k).
Proof.
  change (final (run 2 main m)) with (execs init_calls m).
  change (2 + 5 * k)%nat with (2 + (0 + 5 * k))%nat.
  rewrite (run_main k 0 m) by lia. unfold ran. cbn [final firstn].
  rewrite app_nil_r, execs_app, cycles_are_seconds; [reflexivity|].
  change (execs init_calls m) with (exec (CSetDir 25 GPIO_OUT) (exec (CInit 25) m)).
  rewrite !exec_out, testbit_mask_led. reflexivity.
Qed.

Lemma line_cycles (k : nat) (m : machine) :
  line m 25 = Some false -> line (execs (cycles k) m) 25 = Some false.
Proof.
  revert m. induction k as [|k IH]; intros m H; [exact H|].
  change (cycles (S k)) with (cycle ++ cycles k).
  rewrite execs_app. apply IH, line_cycle. congruence.
Qed.

(** ** Writes and the line *)

Lemma writes_driven_app (cs ds : list call) (m : machine) :
  writes_driven m (cs ++ ds) = writes_driven m cs && writes_driven (execs cs m) ds.
Proof.
  revert m. induction cs as [|c cs IH]; intros m; [reflexivity|].
  cbn [app writes_driven]. rewrite IH, andb_assoc. reflexivity.
Qed.

Lemma writes_driven_cycles (k : nat) (m : machine) :
  line m 25 <> None -> writes_driven m (cycles k) = true.
Proof.
  revert m. induction k as [|k IH]; intros m H; [reflexivity|].
  change (cycles (S k)) with (cycle ++ cycles k).
  rewrite writes_driven_app, IH by (rewrite line_cycle by exact H; discriminate).
  rewrite andb_true_r. unfold cycle. cbn [writes_driven].
  change (line (exec (CSleep 500) (exec (CPut 25 true) m)) 25)
    with (line (exec (CPut 25 true) m) 25).
  rewrite (line_put_led m true H).
  destruct (line m 25); [reflexivity|congruence].
Qed.

(** X3. Every [gpio_put] of a run is made on a pin that is, at that moment,
    an output under the program's control: [main] never writes a level
    before it has configured the pin. *)
Theorem writes_reach_the_line (fuel : nat) (m : machine) :
  writes_driven m (calls (run fuel main m)) = true.
Proof.
  destruct (run_main_prefix fuel) as (cs & k & rest & Hrun & Hcs).
  rewrite Hrun. unfold calls, ran. cbn [trace]. rewrite map_snd_stamp.
  assert (H : writes_driven m (cs ++ rest) = true).
  { rewrite Hcs, writes_driven_app.
    rewrite writes_driven_cycles by (rewrite line_initialized; discriminate).
    reflexivity. }
  rewrite writes_driven_app in H. apply andb_true_iff in H. apply H.
Qed.

Lemma puts_in_cycles (k : nat) :
  length (filter is_put (cycles k)) = (2 * k)%nat.
Proof.
  induction k as [|k IH]; [reflexivity|].
  change (cycles (S k)) with (cycle ++ cycles k).
  rewrite filter_app, length_app, IH. cbn. lia.
Qed.

Lemma edges_partial_cycle (r : nat) (m : machine) :
  line m 25 = Some false ->
  length (edges 25 m (stamp m (firstn r cycle))) =
  length (filter is_put (firstn r cycle)).
Proof.
  intros H.
  assert (H1 : line (exec (CPut 25 true) m) 25 = Some true)
    by (apply line_put_led; congruence).
  set (m2 := exec (CSleep 500) (exec (CPut 25 true) m)).
  assert (H2 : line m2 25 = Some true) by exact H1.
  assert (H3 : line (exec (CPut 25 false) m2) 25 = Some false)
    by (apply line_put_led; congruence).
  destruct r as [|[|[|[|r]]]]; unfold cycle; cbn [firstn stamp filter is_put length].
  - reflexivity.
  - now rewrite (edges_flip 25 m _ _ _ false H H1).
  - rewrite (edges_flip 25 m _ _ _ false H H1).
    now rewrite edges_same by reflexivity.
  - rewrite (edges_flip 25 m _ _ _ false H H1).
    rewrite edges_same by reflexivity. fold m2.
    now rewrite (edges_flip 25 m2 _ _ _ true H2 H3).
  - replace (firstn r []) with (@nil call) by now destruct r.
    rewrite (edges_flip 25 m _ _ _ false H H1).
    rewrite edges_same by reflexivity. fold m2.
    rewrite (edges_flip 25 m2 _ _ _ true H2 H3).
    now rewrite edges_same by reflexivity.
Qed.

(** X4. No write is redundant: at every point of a run pin 25 has made as
    many transitions as [gpio_put] has been called, so each call changed
    the level of the pin. *)
Theorem every_write_flips (fuel : nat) (m : machine) :
  length (edges 25 m (trace (run fuel main m))) =
  length (filter is_put (calls (run fuel main m))).
Proof.
  destruct fuel as [|[|n]].
  - reflexivity.
  - change (trace (run 1 main m)) with [(now m, CInit 25)].
    now rewrite edges_undriven by apply line_init_led.
  - destruct (fuel_split n) as (k & r & Hr & ->).
    change (S (S (r + 5 * k))) with (2 + (r + 5 * k))%nat.
    rewrite (run_main k r m Hr). unfold calls, ran. cbn [trace].
    rewrite map_snd_stamp, app_assoc, stamp_app, edges_app, map_snd_stamp.
    rewrite edges_main, length_app, wave_length.
    rewrite edges_partial_cycle.
    + rewrite !filter_app, !length_app, puts_in_cycles. reflexivity.
    + rewrite execs_app. apply line_cycles, line_initialized.
Qed.

(** ** [main] as a tree *)

Module TreeView.
Import ITree.ITreeFacts Paco.paco.

(** A loop whose condition is always true and whose continuation is
    therefore dead is the library's [ITree.forever]. *)
Lemma iter_forever {R : Type} (body : itree sdkE unit) (r : R) :
  ((ITree.iter (fun _ : unit => body ;; Ret (inl tt)) tt : itree sdkE unit) ;; Ret r)
  ≅ ITree.forever body.
Proof.
  ginit. gcofix CIH.
  rewrite unfold_iter, unfold_forever, !bind_bind.
  guclo eqit_clo_bind. econstructor; [reflexivity|].
  intros u1 u2 _. rewrite bind_ret_l, bind_tau.
  gstep. constructor. gbase. apply CIH.
Qed.

(** X5. Whatever the SDK calls do, [main] behaves, step for step, as the
    initialization of pin 25 followed by the loop body repeated for ever:
    the two are strongly bisimilar, and [return 0] plays no part. *)
Theorem main_is_initialize_then_forever :
  main ≅ (initialize LED_PIN ;; ITree.forever loop_body).
Proof.
  unfold main, initialize. rewrite bind_bind.
  apply eqit_bind; [reflexivity|]. intros _.
  apply eqit_bind; [reflexivity|]. intros _.
  apply iter_forever.
Qed.

End TreeView.
